(** * DDPG agent (ddpg.py): a shallow embedding and its checked properties

    The Python module is embedded function by function.  Numbers that
    the program holds in floating point are taken as exact rationals
    ([Q]): rounding is not modelled, and the properties below are about
    shapes, control flow, exceptions and which value is stored where,
    not about the value an arithmetic operation rounds to.  A tensor is
    its shape and the row-major list of its elements; an ndarray of one
    dimension is the list of its elements.  Python exceptions are the
    [Raise] results of [result]. *)

From Stdlib Require Import QArith ZArith.
From stdpp Require Import gmap strings list fin_maps.

#[local] Set Warnings "-register-all".

Open Scope Z_scope.
Open Scope stdpp_scope.
Open Scope list_scope.

(** ** Exceptions *)

Inductive exn : Type :=
  | AttributeError
  | NameError
  | TypeError
  | RuntimeError
  | ValueError
  | FileNotFoundError
  | UnpicklingError
  | EOFError
  | ZeroDivisionError.

Inductive result (A : Type) : Type :=
  | Ok (a : A)
  | Raise (e : exn).
Arguments Ok {A} a.
Arguments Raise {A} e.

#[global] Instance result_ret : MRet result := @Ok.

#[global] Instance result_bind : MBind result := fun A B k r =>
  match r with
  | Ok a => k a
  | Raise e => Raise e
  end.

(** A [for] loop whose body may raise: the first exception ends it. *)
Fixpoint for_each {S X} (body : S → X → result S) (s : S) (xs : list X)
  : result S :=
  match xs with
  | [] => Ok s
  | x :: xs' => s' ← body s x ; for_each body s' xs'
  end.

(** ** Tensors *)

(** A tensor: its shape and its elements in row-major order. *)
Record Tensor : Type := mkTensor {
  shape : list nat;
  values : list Q
}.

(** The tensor of one dimension that holds [xs]. *)
Definition vector (xs : list Q) : Tensor := mkTensor [length xs] xs.

(** The number of elements of a shape. *)
Definition numel (sh : list nat) : nat := foldr Nat.mul 1%nat sh.

(** [d] cut into [k] consecutive pieces of [n] elements. *)
Fixpoint chunks (n k : nat) (d : list Q) : list (list Q) :=
  match k with
  | O => []
  | S k' => take n d :: chunks n k' (drop n d)
  end.

(** The elements [d] of shape [src] repeated to fill the shape [dst] of
    the same number of dimensions: a dimension must agree or be 1 in
    [src], and a dimension of 1 is repeated. *)
Fixpoint expand (src dst : list nat) (d : list Q) : option (list Q) :=
  match src, dst with
  | [], [] => Some d
  | s :: src', t :: dst' =>
      if (s =? t)%nat
      then
        (fix each (cs : list (list Q)) : option (list Q) :=
           match cs with
           | [] => Some []
           | c :: cs' =>
               r ← expand src' dst' c ; rs ← each cs' ; Some (r ++ rs)
           end) (chunks (numel src') s d)
      else if (s =? 1)%nat
      then r ← expand src' dst' d ; Some (concat (replicate t r))
      else None
  | _, _ => None
  end.

(** torch's broadcasting of [t] to the shape [sh]: the shapes are
    aligned at their last dimensions, and missing leading dimensions
    of [t] count as 1. *)
Definition broadcast_to (sh : list nat) (t : Tensor) : option (list Q) :=
  if decide (shape t = sh) then Some (values t)
  else if (length sh <? length (shape t))%nat then None
  else expand (replicate (length sh - length (shape t)) 1%nat ++ shape t)
              sh (values t).

(** The shape two reversed shapes broadcast to. *)
Fixpoint broadcast_shapes_rev (a b : list nat) : option (list nat) :=
  match a, b with
  | [], _ => Some b
  | _, [] => Some a
  | x :: a', y :: b' =>
      r ← broadcast_shapes_rev a' b' ;
      if (x =? y)%nat then Some (x :: r)
      else if (x =? 1)%nat then Some (y :: r)
      else if (y =? 1)%nat then Some (x :: r)
      else None
  end.

Definition broadcast_shapes (a b : list nat) : option (list nat) :=
  r ← broadcast_shapes_rev (reverse a) (reverse b) ; Some (reverse r).

(** [t * c] for a Python float [c]. *)
Definition tensor_scale (t : Tensor) (c : Q) : Tensor :=
  mkTensor (shape t) ((fun x => (x * c)%Q) <$> values t).

(** [a + b]: both operands are broadcast to their common shape; shapes
    that do not broadcast together are a [RuntimeError]. *)
Definition tensor_add (a b : Tensor) : result Tensor :=
  match broadcast_shapes (shape a) (shape b) with
  | None => Raise RuntimeError
  | Some sh =>
      match broadcast_to sh a, broadcast_to sh b with
      | Some va, Some vb => Ok (mkTensor sh (zip_with Qplus va vb))
      | _, _ => Raise RuntimeError
      end
  end.

(** [dst.copy_(src)]: the destination keeps its shape and takes the
    source's elements, broadcast to that shape; a source that does not
    broadcast to it is a [RuntimeError]. *)
Definition copy_ (dst src : Tensor) : result Tensor :=
  match broadcast_to (shape dst) src with
  | Some vs => Ok (mkTensor (shape dst) vs)
  | None => Raise RuntimeError
  end.

(** ** torch modules *)

(** A [torch.nn.Module]: the parameters registered on the module itself
    ([_parameters]) and its named sub-modules ([_modules]), both in
    registration order. *)
Inductive Module : Type :=
  | mkModule (own : list (string * Tensor)) (subs : list (string * Module)).

Definition _parameters (m : Module) : list (string * Tensor) :=
  match m with mkModule own _ => own end.

Definition _modules (m : Module) : list (string * Module) :=
  match m with mkModule _ subs => subs end.

(** [m.parameters()]: the module's own parameters, then those of each
    sub-module, depth first. *)
Fixpoint parameters (m : Module) : list Tensor :=
  match m with
  | mkModule own subs =>
      (snd <$> own) ++ flat_map (fun c => parameters (snd c)) subs
  end.

(** Writing through the [i]-th parameter object yielded by
    [m.parameters()]: tensors are mutated in place, so the write is
    seen in the module that owns the parameter. *)
Fixpoint update_param (m : Module) (i : nat) (t : Tensor) : Module :=
  match m with
  | mkModule own subs =>
      if (i <? length own)%nat
      then mkModule (alter (fun p => (fst p, t)) i own) subs
      else mkModule own
        ((fix go (cs : list (string * Module)) (j : nat) :=
            match cs with
            | [] => []
            | c :: rest =>
                let k := length (parameters (snd c)) in
                if (j <? k)%nat
                then (fst c, update_param (snd c) j t) :: rest
                else c :: go rest (j - k)%nat
            end) subs (i - length own)%nat)
  end.

(** The layout of a module: its names, with every tensor emptied. *)
Fixpoint layout (m : Module) : Module :=
  match m with
  | mkModule own subs =>
      mkModule ((fun p => (fst p, mkTensor [] [])) <$> own)
               ((fun c => (fst c, layout (snd c))) <$> subs)
  end.

(** The architecture of a module: its names and the shape of every
    parameter, with the elements dropped. *)
Fixpoint architecture (m : Module) : Module :=
  match m with
  | mkModule own subs =>
      mkModule ((fun p => (fst p, mkTensor (shape (snd p)) [])) <$> own)
               ((fun c => (fst c, architecture (snd c))) <$> subs)
  end.

(** First binding of [name] in an ordered dictionary. *)
Fixpoint assoc {A} (name : string) (d : list (string * A)) : option A :=
  match d with
  | [] => None
  | (k, v) :: d' => if String.eqb name k then Some v else assoc name d'
  end.

(** Values an attribute access on a module can produce. *)
Inductive PyVal : Type :=
  | VTensor (t : Tensor)
  | VModule (m : Module).

(** [Module.__getattr__]: a registered parameter, else a registered
    sub-module, else [AttributeError]. *)
Definition getattr (m : Module) (name : string) : result PyVal :=
  match assoc name (_parameters m) with
  | Some t => Ok (VTensor t)
  | None =>
      match assoc name (_modules m) with
      | Some c => Ok (VModule c)
      | None => Raise AttributeError
      end
  end.

(** [v.data]: a tensor's data is the tensor's values; on a module it is
    one more attribute lookup. *)
Definition dot_data (v : PyVal) : result PyVal :=
  match v with
  | VTensor t => Ok (VTensor t)
  | VModule c => getattr c "data"
  end.

(** [v * c] for a Python float [c]. *)
Definition py_mul (v : PyVal) (c : Q) : result Tensor :=
  match v with
  | VTensor t => Ok (tensor_scale t c)
  | VModule _ => Raise TypeError
  end.

(** The pairs of [zip(target.parameters(), source.parameters())], each
    with its position among the target's parameters. *)
Definition zip_parameters (target source : Module)
  : list (nat * (Tensor * Tensor)) :=
  zip (seq 0 (length (parameters target)))
      (zip (parameters target) (parameters source)).

(** ** hard_update, soft_update *)

Definition hard_update (target source : Module) : result Module :=
  for_each (fun tgt '(i, (target_param, param)) =>
              copied ← copy_ target_param param ;
              Ok (update_param tgt i copied))
           target (zip_parameters target source).

(** The loop body reads [target.param.data]: an attribute of the
    network object [target], looked up again at every iteration. *)
Definition soft_update (target source : Module) (tau : Q) : result Module :=
  for_each (fun tgt '(i, (target_param, param)) =>
              tp ← getattr tgt "param" ;
              d ← dot_data tp ;
              lhs ← py_mul d (1 - tau)%Q ;
              blended ← tensor_add lhs (tensor_scale param tau) ;
              copied ← copy_ target_param blended ;
              Ok (update_param tgt i copied))
           target (zip_parameters target source).

(** The blend that the docstring of [soft_update] describes, on the
    elements of one pair of tensors of one size:
    target_param*(1-tau) + param*tau. *)
Definition blend (target_param param : list Q) (tau : Q) : result (list Q) :=
  if (length target_param =? length param)%nat
  then Ok (zip_with (fun t p => (t * (1 - tau) + p * tau)%Q)
             target_param param)
  else Raise RuntimeError.

(** [to_numpy] changes the container, not the values. *)
Definition to_numpy {A} (var : A) : A := var.

(** [to_tensor] hands its array to [torch.from_numpy] under the keyword
    [ndarray] (line 55); [from_numpy] takes its argument by position
    only, so the call raises [TypeError] and no tensor is made. *)
Definition to_tensor {A} (ndarray : A) : result A := Raise TypeError.

(** An operation on two arrays of one dimension, elementwise: the
    lengths agree, or an operand of length 1 is repeated; other
    lengths do not broadcast and are a [ValueError]. *)
Definition broadcast2 (f : Q → Q → Q) (a b : list Q) : result (list Q) :=
  if (length a =? length b)%nat then Ok (zip_with f a b)
  else match a, b with
       | [x], _ => Ok (f x <$> b)
       | _, [y] => Ok ((fun x => f x y) <$> a)
       | _, _ => Raise ValueError
       end.

(** [a += b] on arrays of one dimension: [a] keeps its length, so [b]
    has that length or length 1. *)
Definition np_iadd (a b : list Q) : result (list Q) :=
  if (length a =? length b)%nat then Ok (zip_with Qplus a b)
  else match b with
       | [y] => Ok ((fun x => (x + y)%Q) <$> a)
       | _ => Raise ValueError
       end.

(** ** Parameter dictionaries and files *)

(** [m.state_dict()]: every parameter under its dotted name. *)
Fixpoint state_dict_from (prefix : string) (m : Module)
  : list (string * Tensor) :=
  match m with
  | mkModule own subs =>
      ((fun p => (prefix +:+ fst p, snd p)) <$> own)
      ++ flat_map (fun c => state_dict_from (prefix +:+ fst c +:+ ".") (snd c))
                  subs
  end.

Definition state_dict (m : Module) : list (string * Tensor) :=
  state_dict_from "" m.

(** The module with every parameter that [sd] names replaced by the
    tensor [sd] gives it. *)
Fixpoint assign_from (prefix : string) (sd : list (string * Tensor))
  (m : Module) : Module :=
  match m with
  | mkModule own subs =>
      mkModule
        ((fun p => (fst p, default (snd p) (assoc (prefix +:+ fst p) sd)))
           <$> own)
        ((fun c => (fst c, assign_from (prefix +:+ fst c +:+ ".") sd (snd c)))
           <$> subs)
  end.

Definition has_key {A} (d : list (string * A)) (k : string) : bool :=
  bool_decide (is_Some (assoc k d)).

Definition same_size (d : list (string * Tensor)) (p : string * Tensor)
  : bool :=
  match assoc (fst p) d with
  | Some t => bool_decide (shape t = shape (snd p))
  | None => false
  end.

(** [m.load_state_dict(sd)] with the default [strict=True]: a missing
    key, an unexpected key or a parameter of another shape is a
    [RuntimeError]. *)
Definition load_state_dict (m : Module) (sd : list (string * Tensor))
  : result Module :=
  if forallb (same_size sd) (state_dict m)
     && forallb (has_key (state_dict m)) (fst <$> sd)
  then Ok (assign_from "" sd m)
  else Raise RuntimeError.

(** What a file holds: a pickled parameter dictionary, some other
    pickled object, or bytes that [torch.load] cannot read, with the
    exception it raises on them (which one depends on the bytes). *)
Inductive file : Type :=
  | StateDictFile (sd : list (string * Tensor))
  | OtherPickle
  | NotAPickle (raised : exn).

(** The files of the file system, by path. *)
Abbreviation FS := (gmap string file).

(** [torch.save(sd, path)]; the directory of [path] is taken to exist. *)
Definition torch_save (sd : list (string * Tensor)) (path : string) (fs : FS)
  : FS :=
  <[path := StateDictFile sd]> fs.

(** [torch.load(path)]. *)
Definition torch_load (path : string) (fs : FS) : result file :=
  match fs !! path with
  | None => Raise FileNotFoundError
  | Some (NotAPickle e) => Raise e
  | Some f => Ok f
  end.

(** [m.load_state_dict(torch.load(path))]. *)
Definition load_from_file (m : Module) (path : string) (fs : FS)
  : result Module :=
  f ← torch_load path fs ;
  match f with
  | StateDictFile sd => load_state_dict m sd
  | _ => Raise TypeError
  end.

(** ['{}'.format(output)]: [None] prints as the text None. *)
Definition format_output (output : option string) : string :=
  match output with
  | Some s => s
  | None => "None"
  end.

(** ** Collaborators known only through the specification *)

(** Modelled from the spec: the OUProcess class of the absent module
    random_process.  Its state is the vector [x]; [sample()] moves it by
    [x + theta*(mu - x)*dt + sigma*sqrt(dt)*N(0,1)^size] and returns it;
    [reset_states()] puts the initial value back.  [ou_sqrt_dt] stands
    for sqrt(dt) (1 for the default dt = 1); the normal draw is an
    argument. *)
Record OUProcess : Type := mkOU {
  ou_size : nat;
  ou_theta : Q;
  ou_mu : Q;
  ou_sigma : Q;
  ou_dt : Q;
  ou_sqrt_dt : Q;
  ou_x0 : list Q;
  ou_x : list Q
}.

Definition ou_with_x (p : OUProcess) (x : list Q) : OUProcess :=
  mkOU (ou_size p) (ou_theta p) (ou_mu p) (ou_sigma p) (ou_dt p)
       (ou_sqrt_dt p) (ou_x0 p) x.

Definition ou_sample (p : OUProcess) (normal : list Q)
  : list Q * OUProcess :=
  let x := zip_with
             (fun xi ni =>
                (xi + ou_theta p * (ou_mu p - xi) * ou_dt p
                 + ou_sigma p * ou_sqrt_dt p * ni)%Q)
             (ou_x p) normal in
  (x, ou_with_x p x).

Definition ou_reset_states (p : OUProcess) : OUProcess :=
  ou_with_x p (ou_x0 p).

Definition OUProcess_new (size : nat) (theta mu sigma : Q) : OUProcess :=
  mkOU size theta mu sigma 1 1 (replicate size 0%Q) (replicate size 0%Q).

(** Modelled from the spec: the SequentialMemory class of the absent
    module memory.  A ring buffer of at most [mem_limit] records, one
    per [append(observation, action, reward, terminal)]; the oldest
    record is evicted when the buffer is full. *)
Record Entry : Type := mkEntry {
  e_observation : option (list Q);
  e_action : option (list Q);
  e_reward : Q;
  e_terminal : bool
}.

Record SequentialMemory : Type := mkMemory {
  mem_limit : Z;
  mem_window_length : nat;
  mem_entries : list Entry
}.

Definition SequentialMemory_new (limit : Z) (window_length : nat)
  : SequentialMemory :=
  mkMemory limit window_length [].

Definition mem_append (m : SequentialMemory)
  (observation action : option (list Q)) (reward : Q) (terminal : bool)
  : SequentialMemory :=
  let e := mkEntry observation action reward terminal in
  mkMemory (mem_limit m) (mem_window_length m)
    (if Z.of_nat (length (mem_entries m)) <? mem_limit m
     then mem_entries m ++ [e]
     else drop 1 (mem_entries m) ++ [e]).

(** Modelled from the spec: a Transition (state, action, reward,
    next_state, terminal_flag), read at a buffer position from the
    record stored there and the observation stored next. *)
Record Transition : Type := mkTransition {
  t_state : list Q;
  t_action : list Q;
  t_reward : Q;
  t_next_state : list Q;
  t_terminal : bool
}.

Definition transition_at (m : SequentialMemory) (i : nat)
  : option Transition :=
  e ← mem_entries m !! i ;
  e' ← mem_entries m !! S i ;
  s ← e_observation e ;
  a ← e_action e ;
  s' ← e_observation e' ;
  Some (mkTransition s a (e_reward e) s' (e_terminal e)).

(** The five parallel arrays of a batch. *)
Record Batch : Type := mkBatch {
  state_batch : list (list Q);
  action_batch : list (list Q);
  reward_batch : list Q;
  next_state_batch : list (list Q);
  terminal_batch : list Q
}.

(** Modelled from the spec: the continuation mask, 1.0 if non-terminal
    and 0.0 if terminal. *)
Definition continuation (terminal : bool) : Q :=
  if terminal then 0%Q else 1%Q.

(** Modelled from the spec: [sample_and_split] at the positions drawn;
    it fails when a drawn position holds no valid transition. *)
Definition sample_and_split (m : SequentialMemory) (positions : list nat)
  : result Batch :=
  match mapM (transition_at m) positions with
  | Some ts =>
      Ok (mkBatch (t_state <$> ts) (t_action <$> ts) (t_reward <$> ts)
                  (t_next_state <$> ts)
                  ((fun t => continuation (t_terminal t)) <$> ts))
  | None => Raise RuntimeError
  end.

(** ** Module constants *)

Definition LR : Q := 1 # 1000.
Definition RMSIZE : Z := 100000.
Definition WINDOW_LEN : nat := 1.
Definition TAU : Q := 1 # 100.
Definition OU_PSI : Q := 15 # 100.
Definition OU_SIGMA : Q := 2 # 10.
Definition BATCH_SIZE : nat := 64.
Definition DISCOUNT : Q := 99 # 100.

(** ** The agent *)

(** What the agent works with and this module does not define: the
    random generators, the networks of the module model, the optimiser
    and the environment. *)
Class Collaborators : Type := {
  (** The state of the process-wide random generators. *)
  Rng : Type;
  (** [np.random.normal(size=n)] and [np.random.uniform(lo, hi, size=n)]. *)
  np_normal : nat → Rng → list Q * Rng;
  np_uniform : Q → Q → nat → Rng → list Q * Rng;
  (** The positions the replay memory draws for a batch, given how many
      records it holds and the batch size. *)
  draw_positions : nat → nat → Rng → list nat * Rng;
  (** The constructors [Actor(nb_states, nb_actions)] and
      [Critic(nb_states, nb_actions)] (randomly initialised) and the
      forward passes on one input. *)
  Actor_new : nat → nat → Rng → Module * Rng;
  Critic_new : nat → nat → Rng → Module * Rng;
  actor_forward : Module → list Q → list Q;
  critic_forward : Module → list Q → list Q → Q;
  (** [torch.optim.Adam] and one learning step of each network
      ([backward(); step(); zero_grad()] on the loss of the batch). *)
  Optim : Type;
  Adam : list Tensor → Q → Optim;
  critic_learn :
    Module → Optim → list (list Q) → list (list Q) → list Q → Module * Optim;
  actor_learn :
    Module → Optim → Module → list (list Q) → Module * Optim;
  (** The environment: [reset()] and [step(action)], the latter giving
      (observation, reward, done). *)
  Env : Type;
  env_reset : Env → list Q * Env;
  env_step : Env → list Q → (list Q * Q * bool) * Env
}.

Section Agent.

Context `{Collaborators}.

Record DDPG : Type := mkDDPG {
  nb_states : nat;
  nb_actions : nat;
  actor : Module;
  actor_target : Module;
  actor_optim : Optim;
  critic : Module;
  critic_target : Module;
  critic_optim : Optim;
  batch_size : nat;
  discount : Q;
  tau : Q;
  ignore_step : Z;
  memory : SequentialMemory;
  random_process : OUProcess;
  is_training : bool;
  s_t : option (list Q);
  a_t : option (list Q)
}.

(** Attribute assignments on [self]. *)
Definition set_s_t (a : DDPG) (v : option (list Q)) : DDPG :=
  mkDDPG (nb_states a) (nb_actions a) (actor a) (actor_target a)
    (actor_optim a) (critic a) (critic_target a) (critic_optim a)
    (batch_size a) (discount a) (tau a) (ignore_step a) (memory a)
    (random_process a) (is_training a) v (a_t a).

Definition set_a_t (a : DDPG) (v : option (list Q)) : DDPG :=
  mkDDPG (nb_states a) (nb_actions a) (actor a) (actor_target a)
    (actor_optim a) (critic a) (critic_target a) (critic_optim a)
    (batch_size a) (discount a) (tau a) (ignore_step a) (memory a)
    (random_process a) (is_training a) (s_t a) v.

Definition set_memory (a : DDPG) (m : SequentialMemory) : DDPG :=
  mkDDPG (nb_states a) (nb_actions a) (actor a) (actor_target a)
    (actor_optim a) (critic a) (critic_target a) (critic_optim a)
    (batch_size a) (discount a) (tau a) (ignore_step a) m
    (random_process a) (is_training a) (s_t a) (a_t a).

Definition set_random_process (a : DDPG) (p : OUProcess) : DDPG :=
  mkDDPG (nb_states a) (nb_actions a) (actor a) (actor_target a)
    (actor_optim a) (critic a) (critic_target a) (critic_optim a)
    (batch_size a) (discount a) (tau a) (ignore_step a) (memory a)
    p (is_training a) (s_t a) (a_t a).

Definition set_actor (a : DDPG) (m : Module) : DDPG :=
  mkDDPG (nb_states a) (nb_actions a) m (actor_target a)
    (actor_optim a) (critic a) (critic_target a) (critic_optim a)
    (batch_size a) (discount a) (tau a) (ignore_step a) (memory a)
    (random_process a) (is_training a) (s_t a) (a_t a).

Definition set_critic (a : DDPG) (m : Module) : DDPG :=
  mkDDPG (nb_states a) (nb_actions a) (actor a) (actor_target a)
    (actor_optim a) m (critic_target a) (critic_optim a)
    (batch_size a) (discount a) (tau a) (ignore_step a) (memory a)
    (random_process a) (is_training a) (s_t a) (a_t a).

Definition set_networks (a : DDPG)
  (act act_t : Module) (act_o : Optim) (cri cri_t : Module) (cri_o : Optim)
  : DDPG :=
  mkDDPG (nb_states a) (nb_actions a) act act_t act_o cri cri_t cri_o
    (batch_size a) (discount a) (tau a) (ignore_step a) (memory a)
    (random_process a) (is_training a) (s_t a) (a_t a).

(** [DDPG.__init__] (device placement moves no value). *)
Definition DDPG_init (nb_states nb_actions : nat) (g : Rng)
  : result (DDPG * Rng) :=
  let '(actor, g) := Actor_new nb_states nb_actions g in
  let '(actor_target, g) := Actor_new nb_states nb_actions g in
  let actor_optim := Adam (parameters actor) LR in
  let '(critic, g) := Critic_new nb_states nb_actions g in
  let '(critic_target, g) := Critic_new nb_states nb_actions g in
  let critic_optim := Adam (parameters critic) LR in
  actor_target ← hard_update actor_target actor ;
  critic_target ← hard_update critic_target critic ;
  Ok (mkDDPG nb_states nb_actions actor actor_target actor_optim
        critic critic_target critic_optim
        BATCH_SIZE DISCOUNT TAU 10000
        (SequentialMemory_new RMSIZE WINDOW_LEN)
        (OUProcess_new nb_actions OU_PSI 0 OU_SIGMA)
        true None None, g).

Definition observe (self : DDPG) (r_t : Q) (s_t1 : list Q) (done : bool)
  : DDPG :=
  if is_training self
  then set_s_t
         (set_memory self
            (mem_append (memory self) (s_t self) (a_t self) r_t done))
         (Some s_t1)
  else self.

Definition random_action (self : DDPG) (g : Rng)
  : list Q * DDPG * Rng :=
  let '(action, g) := np_uniform (-1) 1 (nb_actions self) g in
  (action, set_a_t self (Some action), g).

(** A Python bool used as a number. *)
Definition bool_to_Q (b : bool) : Q := if b then 1%Q else 0%Q.

(** The noise of one call: [random_process.sample()]. *)
Definition sample_noise (self : DDPG) (g : Rng)
  : list Q * OUProcess * Rng :=
  let '(normal, g) := np_normal (ou_size (random_process self)) g in
  let '(noise, p) := ou_sample (random_process self) normal in
  (noise, p, g).

(** [select_action] gives the outcome of the call together with the
    agent and the random state it leaves, also when it raises.  The
    actor is applied to the batch of the one state [s_t], and
    [squeeze(0)] takes the one row of its output. *)
Definition select_action (self : DDPG) (s_t : list Q) (g : Rng)
  : result (list Q) * DDPG * Rng :=
  match to_tensor [s_t] with
  | Raise e => (Raise e, self, g)
  | Ok batch =>
      let action :=
        default [] (head (to_numpy (actor_forward (actor self) <$> batch))) in
      let '(noise, p, g) := sample_noise self g in
      let self := set_random_process self p in
      match np_iadd action
              ((fun n => (bool_to_Q (is_training self) * n)%Q) <$> noise) with
      | Raise e => (Raise e, self, g)
      | Ok action => (Ok action, set_a_t self (Some action), g)
      end
  end.

Definition reset (self : DDPG) (obs : list Q) : DDPG :=
  set_random_process (set_s_t self (Some obs))
    (ou_reset_states (random_process self)).

Definition load_weights (self : DDPG) (output : option string) (fs : FS)
  : result DDPG :=
  match output with
  | None => Ok self
  | Some _ =>
      act ← load_from_file (actor self)
              (format_output output +:+ "/actor.pth") fs ;
      let self := set_actor self act in
      cri ← load_from_file (critic self)
              (format_output output +:+ "/actor.pth") fs ;
      Ok (set_critic self cri)
  end.

Definition save_model (self : DDPG) (output : option string) (fs : FS)
  : FS :=
  let fs := torch_save (state_dict (actor self))
              (format_output output +:+ "/actor.pth") fs in
  torch_save (state_dict (critic self))
    (format_output output +:+ "/critic.pth") fs.

(** Lines 142-145: the target critic on the next states and on the
    target actor's actions there. *)
Definition next_q_values (self : DDPG) (b : Batch) : result (list Q) :=
  s1 ← to_tensor (next_state_batch b) ;
  s2 ← to_tensor (next_state_batch b) ;
  Ok (zip_with
        (fun x y => critic_forward (critic_target self) x
                      (actor_forward (actor_target self) y))
        s1 s2).

(** Lines 147-149: the bootstrap target of a batch. *)
Definition target_q_batch (self : DDPG) (b : Batch) (next_q : list Q)
  : result (list Q) :=
  r ← to_tensor (reward_batch b) ;
  t ← to_tensor (terminal_batch b) ;
  masked ← broadcast2 Qmult ((fun m => (discount self * m)%Q) <$> t) next_q ;
  broadcast2 Qplus r masked.

(** Lines 152-168: the two learning steps on the target [y], then
    the soft updates of the target networks. *)
Definition learn_from_target (self : DDPG) (b : Batch) (y : list Q)
  (g : Rng) : result (DDPG * Rng) :=
  s ← to_tensor (state_batch b) ;
  a ← to_tensor (action_batch b) ;
  let '(cri, cri_o) :=
    critic_learn (critic self) (critic_optim self) s a y in
  s1 ← to_tensor (state_batch b) ;
  s2 ← to_tensor (state_batch b) ;
  let '(act, act_o) :=
    actor_learn (actor self) (actor_optim self) cri s2 in
  act_t ← soft_update (actor_target self) act (tau self) ;
  cri_t ← soft_update (critic_target self) cri (tau self) ;
  Ok (set_networks self act act_t act_o cri cri_t cri_o, g).

Definition update_policy (self : DDPG) (g : Rng) : result (DDPG * Rng) :=
  let '(positions, g) :=
    draw_positions (length (mem_entries (memory self)))
                   (batch_size self) g in
  b ← sample_and_split (memory self) positions ;
  next_q ← next_q_values self b ;
  y ← target_q_batch self b next_q ;
  learn_from_target self b y g.

(** *** The training loop *)

(** What a module-level name can be bound to: the agent that is
    running [train], another agent, or anything else (a function, a
    class, a constant, an imported module). *)
Inductive GlobalVal : Type :=
  | GSelf
  | GAgent (a : DDPG)
  | GOther.

Abbreviation Globals := (gmap string GlobalVal).

(** The names the module binds at top level; [agent] is not one. *)
Definition module_globals : Globals :=
  list_to_map
    ((fun n => (n, GOther)) <$>
     ["np"; "torch"; "nn"; "Adam"; "deepcopy"; "Actor"; "Critic";
      "SequentialMemory"; "OUProcess"; "USE_CUDA"; "LR"; "RMSIZE";
      "WINDOW_LEN"; "TAU"; "OU_PSI"; "OU_SIGMA"; "BATCH_SIZE"; "DISCOUNT";
      "loss"; "hard_update"; "soft_update"; "to_numpy"; "to_tensor";
      "DDPG"]).

(** A method call on the global name [agent]: the name is resolved
    first, and the call runs on the object it is bound to. *)
Definition call_agent {A} (globals : Globals) (self : DDPG)
  (method : DDPG → A * DDPG) : result (A * Globals * DDPG) :=
  match globals !! "agent" with
  | None => Raise NameError
  | Some GSelf =>
      let '(r, self) := method self in Ok (r, globals, self)
  | Some (GAgent a) =>
      let '(r, a) := method a in
      Ok (r, <["agent" := GAgent a]> globals, self)
  | Some GOther => Raise AttributeError
  end.

(** The calls a run of [train] makes, in order; a call is recorded when
    it is made, also when it then raises.  [EvAppend] is the call of
    [self.memory.append] at line 201. *)
Inductive Event : Type :=
  | EvEnvReset
  | EvAgentReset
  | EvSelectAction
  | EvEnvStep
  | EvObserve
  | EvAppend
  | EvUpdatePolicy (step : Z)
  | EvSaveModel (step : Z).

(** The objects [train] works on and its local variables. *)
Record TrainState : Type := mkTrainState {
  ts_self : DDPG;
  ts_globals : Globals;
  ts_env : Env;
  ts_rng : Rng;
  ts_fs : FS;
  ts_step : Z;
  ts_episode : Z;
  ts_episode_steps : Z;
  ts_episode_reward : Q;
  ts_observation : option (list Q)
}.

(** Python truth value of [max_episode_length]. *)
Definition truthy (v : option Z) : bool :=
  match v with
  | Some n => negb (n =? 0)
  | None => false
  end.

(** Lines 177-181: the start of an iteration, up to the selected
    action. *)
Definition train_select (st : TrainState)
  : list Event * result (list Q * list Q * TrainState) :=
  let episode_start :=
    match ts_observation st with
    | Some observation => ([], Ok (observation, st))
    | None =>
        let '(observation, env) := env_reset (ts_env st) in
        match call_agent (ts_globals st) (ts_self st)
                (fun a => (tt, reset a observation)) with
        | Raise e => ([EvEnvReset], Raise e)
        | Ok (_, globals, self) =>
            ([EvEnvReset; EvAgentReset],
             Ok (observation,
                 mkTrainState self globals env (ts_rng st) (ts_fs st)
                   (ts_step st) (ts_episode st) (ts_episode_steps st)
                   (ts_episode_reward st) (Some observation)))
        end
    end in
  match episode_start with
  | (evs, Raise e) => (evs, Raise e)
  | (evs, Ok (observation, st)) =>
      match call_agent (ts_globals st) (ts_self st)
              (fun a => let '(r, a, g) :=
                          select_action a observation (ts_rng st) in
                        ((r, g), a)) with
      | Raise e => (evs, Raise e)
      | Ok ((Raise e, g), globals, self) => (evs ++ [EvSelectAction], Raise e)
      | Ok ((Ok action, g), globals, self) =>
          (evs ++ [EvSelectAction],
           Ok (observation, action,
               mkTrainState self globals (ts_env st) g (ts_fs st)
                 (ts_step st) (ts_episode st) (ts_episode_steps st)
                 (ts_episode_reward st) (ts_observation st)))
      end
  end.

(** Lines 189-193: the learning update behind its guard, then the
    periodic save. *)
Definition train_learn (num_iter : Z) (output : option string)
  (step : Z) (self : DDPG) (g : Rng) (fs : FS)
  : list Event * result (DDPG * Rng * FS) :=
  let learnt :=
    if ignore_step self <? step
    then ([EvUpdatePolicy step], update_policy self g)
    else ([], Ok (self, g)) in
  match learnt with
  | (evs, Raise e) => (evs, Raise e)
  | (evs, Ok (self, g)) =>
      let period := Z.quot num_iter 3 in
      if period =? 0 then (evs, Raise ZeroDivisionError)
      else if step mod period =? 0
      then (evs ++ [EvSaveModel step],
            Ok (self, g, save_model self output fs))
      else (evs, Ok (self, g, fs))
  end.

(** Lines 200-211: the end of an episode. *)
Definition train_episode_end (self : DDPG) (g : Rng) (observation : list Q)
  : list Event * result (DDPG * Rng) :=
  let '(r, self, g) := select_action self observation g in
  match r with
  | Raise e => ([EvSelectAction], Raise e)
  | Ok action =>
      ([EvSelectAction; EvAppend],
       Ok (set_memory self
             (mem_append (memory self) (Some observation) (Some action)
                0 false),
           g))
  end.

(** One iteration of the [while] loop. *)
Definition train_iter (num_iter : Z) (output : option string)
  (max_episode_length : option Z) (st : TrainState)
  : list Event * result TrainState :=
  match train_select st with
  | (evs, Raise e) => (evs, Raise e)
  | (evs, Ok (observation, action, st)) =>
      let '(observ2, reward, done, env) := env_step (ts_env st) action in
      let done :=
        if truthy max_episode_length
           && (default 0 max_episode_length - 1 <=? ts_episode_steps st)
        then true else done in
      let self := observe (ts_self st) reward observ2 done in
      let evs := evs ++ [EvEnvStep; EvObserve] in
      match train_learn num_iter output (ts_step st) self (ts_rng st)
              (ts_fs st) with
      | (evs', Raise e) => (evs ++ evs', Raise e)
      | (evs', Ok (self, g, fs)) =>
          let step := ts_step st + 1 in
          let episode_steps := ts_episode_steps st + 1 in
          let episode_reward := (ts_episode_reward st + reward)%Q in
          if done
          then
            match train_episode_end self g observ2 with
            | (evs'', Raise e) => (evs ++ evs' ++ evs'', Raise e)
            | (evs'', Ok (self, g)) =>
                (evs ++ evs' ++ evs'',
                 Ok (mkTrainState self (ts_globals st) env g fs step
                       (ts_episode st + 1) 0 0 None))
            end
          else
            (evs ++ evs',
             Ok (mkTrainState self (ts_globals st) env g fs step
                   (ts_episode st) episode_steps episode_reward
                   (Some observ2)))
      end
  end.

(** [while step < num_iter]: each iteration adds one to [step], so
    [fuel] iterations are enough once [fuel >= num_iter - step]. *)
Fixpoint train_loop (fuel : nat) (num_iter : Z) (output : option string)
  (max_episode_length : option Z) (st : TrainState)
  : list Event * result TrainState :=
  match fuel with
  | O => ([], Ok st)
  | S fuel =>
      if ts_step st <? num_iter
      then
        match train_iter num_iter output max_episode_length st with
        | (evs, Raise e) => (evs, Raise e)
        | (evs, Ok st) =>
            let '(evs', r) :=
              train_loop fuel num_iter output max_episode_length st in
            (evs ++ evs', r)
        end
      else ([], Ok st)
  end.

Definition train (self : DDPG) (globals : Globals) (env : Env) (g : Rng)
  (fs : FS) (num_iter : Z) (output : option string)
  (max_episode_length : option Z) : list Event * result TrainState :=
  train_loop (Z.to_nat num_iter) num_iter output max_episode_length
    (mkTrainState self globals env g fs 0 0 0 0 None).

End Agent.

(** ** Concrete instances, for the examples below *)

(** A network of one layer [fc] with a weight and a bias, both of one
    dimension. *)
Definition one_layer (weight bias : list Q) : Module :=
  mkModule []
    [("fc", mkModule [("weight", vector weight); ("bias", vector bias)] [])].

(** A network whose own parameters are named [param] and [bias]. *)
Definition flat_net (param bias : list Q) : Module :=
  mkModule [("param", vector param); ("bias", vector bias)] [].

(** A network of the single parameter [w]. *)
Definition single (w : Tensor) : Module := mkModule [("w", w)] [].

(** Collaborators that compute: a counter for the random state, constant
    draws, one-layer networks, learning steps that change nothing, and
    an environment that counts its steps and ends an episode at every
    third one. *)
Definition toy : Collaborators := {|
  Rng := nat;
  np_normal n g := (replicate n (1 # 2), S g);
  np_uniform lo hi n g := (replicate n lo, S g);
  draw_positions held batch g := (replicate batch 0%nat, S g);
  Actor_new ns na g :=
    (one_layer (replicate na (Z.of_nat g # 1)) (replicate na 0%Q), S g);
  Critic_new ns na g :=
    (one_layer (replicate na (Z.of_nat g # 1)) (replicate na 0%Q), S g);
  actor_forward m s := default [] (values <$> head (parameters m));
  critic_forward m s a :=
    default 0%Q (head (concat (values <$> parameters m)));
  Optim := unit;
  Adam _ _ := tt;
  critic_learn m o _ _ _ := (m, o);
  actor_learn m o _ _ := (m, o);
  Env := nat;
  env_reset e := ([0%Q; 0%Q; 0%Q], e);
  env_step e a := (([0%Q; 0%Q; 1%Q], 1%Q, (Nat.modulo (S e) 3 =? 0)%nat), S e)
|}.

(** An agent over [toy] with the given networks, flag and warm-up. *)
Definition toy_agent (act cri : Module) (training : bool) (warm_up : Z)
  : @DDPG toy :=
  @mkDDPG toy 3 1 act act tt cri cri tt 1 DISCOUNT TAU warm_up
    (SequentialMemory_new 10 1) (OUProcess_new 1 OU_PSI 0 OU_SIGMA)
    training None None.

(** A replay memory holding one step of an episode and the observation
    that followed it. *)
Definition toy_memory : SequentialMemory :=
  mem_append
    (mem_append (SequentialMemory_new 10 1)
       (Some [0%Q; 0%Q; 0%Q]) (Some [1%Q]) 1 false)
    (Some [0%Q; 0%Q; 1%Q]) (Some [1%Q]) 0 true.

(** A training agent with a warm-up of one step, and one out of
    training mode. *)
Definition warm_agent : @DDPG toy :=
  toy_agent (one_layer [1%Q] [0%Q]) (one_layer [2%Q] [0%Q]) true 1.

Definition idle_agent : @DDPG toy :=
  toy_agent (one_layer [1%Q] [0%Q]) (one_layer [2%Q] [0%Q]) false 1.

(** The module's names with [agent] bound, from outside, to the agent
    that runs [train]. *)
Definition globals_with_agent : gmap string (@GlobalVal toy) :=
  <["agent" := GSelf]> module_globals.

(** * Properties *)

(** ** Modules and their parameter lists *)

Lemma Module_ind' (P : Module → Prop) :
  (∀ own subs, Forall (fun c => P (snd c)) subs → P (mkModule own subs)) →
  ∀ m, P m.
Proof.
  intros H. fix IH 1. intros [own subs]. apply H.
  induction subs as [|c subs IHs]; constructor; [apply IH | exact IHs].
Qed.

Lemma fmap_snd_alter (own : list (string * Tensor)) i t :
  snd <$> alter (fun p => (fst p, t)) i own = <[i:=t]> (snd <$> own).
Proof.
  revert i. induction own as [|p own IH]; intros [|i]; simpl; try done.
  f_equal. apply IH.
Qed.

Lemma parameters_update_param m i t :
  parameters (update_param m i t) = <[i:=t]> (parameters m).
Proof.
  revert i. induction m as [own subs IH] using Module_ind'. intros i. simpl.
  destruct (Nat.ltb_spec i (length own)) as [Hlt|Hge]; simpl.
  - rewrite insert_app_l by (rewrite length_fmap; lia).
    f_equal. apply fmap_snd_alter.
  - replace i with (length (snd <$> own) + (i - length own))%nat at 2
      by (rewrite length_fmap; lia).
    rewrite insert_app_r. f_equal.
    generalize (i - length own)%nat as j. clear Hge i.
    induction IH as [|c subs Hc _ IHs]; intros j; simpl; [done|].
    destruct (Nat.ltb_spec j (length (parameters (snd c)))) as [Hlt|Hge]; simpl.
    + rewrite Hc. by rewrite insert_app_l.
    + rewrite IHs.
      replace j with (length (parameters (snd c))
                      + (j - length (parameters (snd c))))%nat at 2 by lia.
      by rewrite insert_app_r.
Qed.

(** [update_param] keeps every name in place. *)
Lemma layout_update_param m i t : layout (update_param m i t) = layout m.
Proof.
  revert i. induction m as [own subs IH] using Module_ind'. intros i. simpl.
  destruct (i <? length own)%nat; simpl; f_equal.
  - clear. revert i. induction own as [|p own IHo]; intros [|i]; simpl;
      try done. f_equal. apply IHo.
  - generalize (i - length own)%nat as j.
    induction IH as [|c subs Hc _ IHs]; intros j; simpl; [done|].
    destruct (j <? length (parameters (snd c)))%nat; simpl.
    + by rewrite Hc.
    + by rewrite IHs.
Qed.

Lemma layout_length m1 m2 :
  layout m1 = layout m2 →
  length (parameters m1) = length (parameters m2).
Proof.
  revert m2. induction m1 as [own1 subs1 IH] using Module_ind'.
  intros [own2 subs2] Heq. simpl in Heq. injection Heq as Hown Hsubs.
  simpl. rewrite !length_app, !length_fmap.
  f_equal.
  - apply (f_equal length) in Hown. by rewrite !length_fmap in Hown.
  - revert subs2 Hsubs.
    induction IH as [|c1 subs1 Hc _ IHs]; intros [|c2 subs2] Hsubs;
      simpl in *; try done.
    injection Hsubs as _ Hl Hrest.
    rewrite !length_app. f_equal; [by apply Hc | by apply IHs].
Qed.

Lemma names_and_values_eq (l1 l2 : list (string * Tensor)) :
  (fun p => (fst p, mkTensor [] [])) <$> l1
  = (fun p => (fst p, mkTensor [] [])) <$> l2 →
  snd <$> l1 = snd <$> l2 →
  l1 = l2.
Proof.
  revert l2. induction l1 as [|[n1 t1] l1 IH]; intros [|[n2 t2] l2] Hn Hv;
    simpl in *; try done.
  injection Hn as -> Hn. injection Hv as -> Hv. f_equal. by apply IH.
Qed.

(** A module is its layout together with its parameter values. *)
Lemma layout_parameters_eq m1 m2 :
  layout m1 = layout m2 → parameters m1 = parameters m2 → m1 = m2.
Proof.
  revert m2. induction m1 as [own1 subs1 IH] using Module_ind'.
  intros [own2 subs2] Hl Hp. simpl in Hl, Hp. injection Hl as Hown Hsubs.
  apply app_inj_1 in Hp as [Hpo Hps].
  2:{ apply (f_equal length) in Hown. by rewrite !length_fmap in *. }
  f_equal; [by apply names_and_values_eq|].
  clear Hown Hpo. revert subs2 Hsubs Hps.
  induction IH as [|c1 subs1 Hc _ IHs]; intros [|c2 subs2] Hsubs Hps;
    simpl in *; try done.
  injection Hsubs as Hn Hl Hrest.
  apply app_inj_1 in Hps as [Hp1 Hp2]; [|by apply layout_length].
  f_equal; [|by apply IHs].
  destruct c1, c2; simpl in *. f_equal; [done | by apply Hc].
Qed.

(** The architecture keeps the names and, of every parameter, the
    shape. *)
Lemma layout_architecture m : layout (architecture m) = layout m.
Proof.
  induction m as [own subs IH] using Module_ind'. simpl. f_equal.
  - rewrite <- list_fmap_compose. by apply list_fmap_ext.
  - induction IH as [|c subs Hc _ IHs]; simpl; [done|].
    rewrite Hc. f_equal. exact IHs.
Qed.

Lemma parameters_architecture m :
  parameters (architecture m)
  = (fun t => mkTensor (shape t) []) <$> parameters m.
Proof.
  induction m as [own subs IH] using Module_ind'. simpl.
  rewrite fmap_app. f_equal.
  - rewrite <- !list_fmap_compose. by apply list_fmap_ext.
  - induction IH as [|c subs Hc _ IHs]; simpl; [done|].
    rewrite fmap_app, Hc. f_equal. exact IHs.
Qed.

Lemma same_shapes_zip (ts ss : list Tensor) :
  (fun t => mkTensor (shape t) []) <$> ts
  = (fun t => mkTensor (shape t) []) <$> ss →
  length ts = length ss
  ∧ Forall (fun pr => shape (fst pr) = shape (snd pr)) (zip ts ss).
Proof.
  revert ss. induction ts as [|t ts IH]; intros [|s ss] Heq; simpl in *;
    try done.
  injection Heq as Hsh Hrest. destruct (IH _ Hrest) as [Hlen Hall].
  split; [by f_equal|]. by constructor.
Qed.

(** Two modules of one architecture have their parameters in pairs of
    one shape. *)
Lemma architecture_pairs target source :
  architecture target = architecture source →
  layout target = layout source
  ∧ length (parameters target) = length (parameters source)
  ∧ Forall (fun pr => shape (fst pr) = shape (snd pr))
      (zip (parameters target) (parameters source)).
Proof.
  intros Harch. split.
  - by rewrite <- (layout_architecture target), Harch, layout_architecture.
  - apply same_shapes_zip. by rewrite <- !parameters_architecture, Harch.
Qed.

(** ** hard_update *)

(** Between tensors of one shape, [copy_] gives the destination the
    source's value. *)
Lemma copy_same_shape dst src : shape dst = shape src → copy_ dst src = Ok src.
Proof.
  intros Hsh. unfold copy_, broadcast_to.
  destruct (decide (shape src = shape dst)) as [_|Hne]; [|by rewrite Hsh in Hne].
  rewrite Hsh. by destruct src.
Qed.

Lemma for_each_invariant {S X} (P : S → Prop) (body : S → X → result S) :
  (∀ s x s', body s x = Ok s' → P s → P s') →
  ∀ xs s s', for_each body s xs = Ok s' → P s → P s'.
Proof.
  intros Hbody. induction xs as [|x xs IH]; intros s s'; simpl.
  - by intros [= <-].
  - destruct (body s x) as [s1|] eqn:Hb; simpl; [|done].
    intros Hrest Hs. eapply IH; [exact Hrest|]. by eapply Hbody.
Qed.

(** On pairs of one shape the loop of [hard_update] writes each source
    parameter over its target parameter and does not raise. *)
Lemma hard_update_loop_same_shapes (xs : list (nat * (Tensor * Tensor))) m :
  Forall (fun x => shape (fst (snd x)) = shape (snd (snd x))) xs →
  for_each (fun tgt '(i, (target_param, param)) =>
              copied ← copy_ target_param param ;
              Ok (update_param tgt i copied)) m xs
  = Ok (foldl (fun tgt '(i, (_, param)) => update_param tgt i param) m xs).
Proof.
  intros Hxs. revert m.
  induction Hxs as [|[i [tp p]] xs Hsh _ IH]; intros m; simpl; [done|].
  simpl in Hsh. rewrite (copy_same_shape _ _ Hsh). simpl. apply IH.
Qed.

Lemma parameters_foldl_update (xs : list (nat * (Tensor * Tensor))) m :
  parameters
    (foldl (fun tgt '(i, (_, param)) => update_param tgt i param) m xs)
  = foldl (fun l '(i, (_, param)) => <[i:=param]> l) (parameters m) xs.
Proof.
  revert m. induction xs as [|[i [tp p]] xs IH]; intros m; simpl; [done|].
  rewrite IH. by rewrite parameters_update_param.
Qed.

Lemma layout_foldl_update (xs : list (nat * (Tensor * Tensor))) m :
  layout (foldl (fun tgt '(i, (_, param)) => update_param tgt i param) m xs)
  = layout m.
Proof.
  revert m. induction xs as [|[i [tp p]] xs IH]; intros m; simpl; [done|].
  rewrite IH. apply layout_update_param.
Qed.

Lemma foldl_overwrite (pre ts ss : list Tensor) :
  foldl (fun l '(i, (_, param)) => <[i:=param]> l) (pre ++ ts)
        (zip (seq (length pre) (length ts)) (zip ts ss))
  = pre ++ take (length ts) ss ++ drop (length ss) ts.
Proof.
  revert pre ss. induction ts as [|t ts IH]; intros pre ss; simpl.
  - by rewrite drop_nil.
  - destruct ss as [|s ss]; simpl; [done|].
    replace (<[length pre:=s]> (pre ++ t :: ts)) with ((pre ++ [s]) ++ ts).
    2:{ rewrite <- (Nat.add_0_r (length pre)) at 1.
        rewrite insert_app_r. simpl. by rewrite <- app_assoc. }
    specialize (IH (pre ++ [s]) ss).
    rewrite length_app in IH. simpl in IH.
    rewrite Nat.add_1_r in IH. rewrite IH.
    by rewrite <- app_assoc.
Qed.

Lemma zip_parameters_same_shapes target source :
  Forall (fun pr => shape (fst pr) = shape (snd pr))
    (zip (parameters target) (parameters source)) →
  Forall (fun x => shape (fst (snd x)) = shape (snd (snd x)))
    (zip_parameters target source).
Proof.
  unfold zip_parameters. generalize (zip (parameters target) (parameters source)).
  generalize (seq 0 (length (parameters target))).
  intros idx ps Hps. revert idx.
  induction Hps as [|p ps Hp _ IH]; intros [|i idx]; simpl; try constructor;
    [done | apply IH].
Qed.

(** With every pair of one shape, [hard_update] returns, and the target
    then has the source's parameters along [zip], its further
    parameters and its names as before. *)
Lemma hard_update_same_shapes target source :
  Forall (fun pr => shape (fst pr) = shape (snd pr))
    (zip (parameters target) (parameters source)) →
  ∃ target',
    hard_update target source = Ok target'
    ∧ parameters target'
      = take (length (parameters target)) (parameters source)
        ++ drop (length (parameters source)) (parameters target)
    ∧ layout target' = layout target.
Proof.
  intros Hsh. eexists. split; [|split].
  - unfold hard_update.
    apply hard_update_loop_same_shapes, zip_parameters_same_shapes, Hsh.
  - rewrite parameters_foldl_update.
    apply (foldl_overwrite [] (parameters target) (parameters source)).
  - apply layout_foldl_update.
Qed.

Lemma zip_overwrite_eq (ts ss : list Tensor) :
  Forall (fun pr => fst pr = snd pr)
    (zip (take (length ts) ss ++ drop (length ss) ts) ss).
Proof.
  revert ss. induction ts as [|t ts IH]; intros [|s ss]; simpl;
    try constructor; simpl; done.
Qed.

(** Between two networks of one architecture, [hard_update] makes the
    target the source. *)
Lemma hard_update_same_architecture target source :
  architecture target = architecture source →
  hard_update target source = Ok source.
Proof.
  intros Harch. apply architecture_pairs in Harch as (Hl & Hlen & Hsh).
  destruct (hard_update_same_shapes _ _ Hsh) as (t' & -> & Hp & Hl').
  f_equal. apply layout_parameters_eq; [congruence|].
  rewrite Hp, drop_ge, take_ge by lia. apply app_nil_r.
Qed.

(** ** soft_update *)

(** With parameters to pair and no attribute [param] on the target, the
    first iteration of the loop raises. *)
Lemma soft_update_no_param_attribute target source tau :
  getattr target "param" = Raise AttributeError →
  parameters target ≠ [] → parameters source ≠ [] →
  soft_update target source tau = Raise AttributeError.
Proof.
  intros Hattr Ht Hs. unfold soft_update, zip_parameters.
  destruct (parameters target) as [|t ts]; [done|].
  destruct (parameters source) as [|s ss]; [done|].
  simpl. by rewrite Hattr.
Qed.

(** Each iteration of [soft_update] writes one parameter in place. *)
Lemma soft_update_layout target source tau target' :
  soft_update target source tau = Ok target' →
  layout target' = layout target.
Proof.
  unfold soft_update. intros Hrun.
  eapply (for_each_invariant (fun t => layout t = layout target));
    [|exact Hrun|done].
  intros t [i [tp p]] t' Hbody Ht. simpl in Hbody.
  destruct (getattr t "param") as [v|]; simpl in Hbody; [|done].
  destruct (dot_data v) as [d|]; simpl in Hbody; [|done].
  destruct (py_mul d (1 - tau)%Q) as [lhs|]; simpl in Hbody; [|done].
  destruct (tensor_add lhs (tensor_scale p tau)) as [bl|]; simpl in Hbody;
    [|done].
  destruct (copy_ tp bl) as [copied|]; simpl in Hbody; [|done].
  injection Hbody as <-. by rewrite layout_update_param.
Qed.

(** ** Files *)

Lemma append_inj_l (o x y : string) : o +:+ x = o +:+ y → x = y.
Proof. induction o as [|c o IH]; simpl; [done|]. intros [=]. auto. Qed.

Lemma actor_path_ne_critic_path (o : string) :
  o +:+ "/critic.pth" ≠ o +:+ "/actor.pth".
Proof. intros Heq. by apply append_inj_l in Heq. Qed.

Lemma assoc_NoDup {A} (d : list (string * A)) k v :
  NoDup (fst <$> d) → (k, v) ∈ d → assoc k d = Some v.
Proof.
  induction d as [|[k0 v0] d IH]; simpl; intros Hnd Hin.
  - by apply elem_of_nil in Hin.
  - apply NoDup_cons in Hnd as [Hk0 Hnd].
    apply elem_of_cons in Hin as [[= -> ->]|Hin].
    + by rewrite String.eqb_refl.
    + destruct (String.eqb_spec k k0) as [->|_]; [|by apply IH].
      exfalso. apply Hk0. apply list_elem_of_fmap. by exists (k0, v).
Qed.

Lemma assign_from_id prefix sd m :
  (∀ k v, (k, v) ∈ state_dict_from prefix m → assoc k sd = Some v) →
  assign_from prefix sd m = m.
Proof.
  revert prefix. induction m as [own subs IH] using Module_ind'.
  intros prefix Hsd. simpl in *. f_equal.
  - assert (∀ p, p ∈ own → assoc (prefix +:+ fst p) sd = Some (snd p)) as Ho.
    { intros p Hp. apply Hsd. apply elem_of_app. left.
      apply list_elem_of_fmap. by exists p. }
    clear Hsd IH. induction own as [|p own IHo]; simpl; [done|].
    rewrite (Ho p) by (apply elem_of_cons; auto). simpl.
    destruct p. simpl. f_equal. apply IHo.
    intros q Hq. apply Ho. apply elem_of_cons. by right.
  - assert (∀ c k v, c ∈ subs →
              (k, v) ∈ state_dict_from (prefix +:+ fst c +:+ ".") (snd c) →
              assoc k sd = Some v) as Hs.
    { intros c k v Hc Hkv. apply Hsd. apply elem_of_app. right.
      apply list_elem_of_In, in_flat_map. exists c.
      split; by apply list_elem_of_In. }
    clear Hsd. induction IH as [|c subs Hc _ IHs]; simpl; [done|].
    f_equal.
    + destruct c as [n c]. simpl in *. f_equal. apply Hc.
      intros k v Hkv. apply (Hs (n, c)); [apply elem_of_cons; auto|done].
    + apply IHs. intros c' k v Hc' Hkv.
      apply (Hs c'); [apply elem_of_cons; auto|done].
Qed.

(** A network whose parameter names are distinct takes its own
    parameter dictionary back unchanged. *)
Lemma load_own_state_dict m :
  NoDup (fst <$> state_dict m) → load_state_dict m (state_dict m) = Ok m.
Proof.
  intros Hnd. unfold load_state_dict.
  assert (forallb (same_size (state_dict m)) (state_dict m) = true) as ->.
  { apply forallb_forall. intros [k v] Hin. unfold same_size. simpl.
    rewrite (assoc_NoDup _ k v Hnd) by by apply list_elem_of_In.
    by apply bool_decide_eq_true. }
  assert (forallb (has_key (state_dict m)) (fst <$> state_dict m) = true)
    as ->.
  { apply forallb_forall. intros k Hin. unfold has_key.
    apply bool_decide_eq_true.
    apply list_elem_of_In, list_elem_of_fmap in Hin as [[k' v] [-> Hin]].
    simpl. rewrite (assoc_NoDup _ k' v Hnd Hin). by eexists. }
  simpl. f_equal. apply assign_from_id. intros k v Hkv.
  by apply assoc_NoDup.
Qed.

Section AgentProperties.

Context `{Collaborators}.

(** X10 ([DDPG.load_weights]): the call never looks at the file
    [critic.pth]: writing anything to it changes no outcome. *)
Lemma load_weights_ignores_critic_file (self : DDPG) o f (fs : FS) :
  load_weights self (Some o) (<[o +:+ "/critic.pth" := f]> fs)
  = load_weights self (Some o) fs.
Proof.
  unfold load_weights, load_from_file, torch_load. simpl.
  by rewrite lookup_insert_ne by apply actor_path_ne_critic_path.
Qed.

(** Nor does it matter whether the file [critic.pth] is there. *)
Lemma load_weights_without_critic_file (self : DDPG) o (fs : FS) :
  load_weights self (Some o) (delete (o +:+ "/critic.pth") fs)
  = load_weights self (Some o) fs.
Proof.
  unfold load_weights, load_from_file, torch_load. simpl.
  by rewrite lookup_delete_ne by apply actor_path_ne_critic_path.
Qed.

(** When [load_weights] returns, both networks hold what the one file
    [actor.pth] gave them. *)
Lemma load_weights_ok (self a' : DDPG) o (fs : FS) :
  load_weights self (Some o) fs = Ok a' →
  ∃ sd, fs !! (o +:+ "/actor.pth") = Some (StateDictFile sd)
        ∧ load_state_dict (actor self) sd = Ok (actor a')
        ∧ load_state_dict (critic self) sd = Ok (critic a').
Proof.
  unfold load_weights, load_from_file, torch_load. simpl.
  destruct (fs !! (o +:+ "/actor.pth")) as [[sd| |e]|]; simpl; try done.
  destruct (load_state_dict (actor self) sd) as [act|] eqn:Ha; simpl;
    [|done].
  destruct (load_state_dict (critic self) sd) as [cri|] eqn:Hc; simpl;
    [|done].
  intros [= <-]. by exists sd.
Qed.

(** After [save_model], the file [actor.pth] holds the actor's
    parameters. *)
Lemma save_model_lookup_actor (self : DDPG) output (fs : FS) :
  save_model self output fs !! (format_output output +:+ "/actor.pth")
  = Some (StateDictFile (state_dict (actor self))).
Proof.
  unfold save_model, torch_save.
  rewrite lookup_insert_ne by apply actor_path_ne_critic_path.
  apply lookup_insert_eq.
Qed.

(** Whenever loading after saving returns, the critic has been loaded
    from the actor's parameter dictionary. *)
Lemma save_then_load_critic_from_actor (self a' : DDPG) o (fs : FS) :
  load_weights self (Some o) (save_model self (Some o) fs) = Ok a' →
  load_state_dict (critic self) (state_dict (actor self)) = Ok (critic a').
Proof.
  intros Hload. apply load_weights_ok in Hload as (sd & Hfile & _ & Hcri).
  pose proof (save_model_lookup_actor self (Some o) fs) as Hsaved.
  simpl in Hsaved. rewrite Hsaved in Hfile. by injection Hfile as <-.
Qed.

(** Without a path the call returns at once; with one, what
    [torch.load] raises on [actor.pth] is what the call raises. *)
Lemma load_weights_none_and_actor_file (self : DDPG) o (fs : FS) :
  load_weights self None fs = Ok self
  ∧ (fs !! (o +:+ "/actor.pth") = None →
     load_weights self (Some o) fs = Raise FileNotFoundError)
  ∧ (∀ e, fs !! (o +:+ "/actor.pth") = Some (NotAPickle e) →
          load_weights self (Some o) fs = Raise e).
Proof.
  unfold load_weights, load_from_file, torch_load. simpl.
  split; [done|]. split; [by intros ->|by intros e ->].
Qed.

(** ** hard_update at construction *)


End AgentProperties.


(** C1 ([soft_update]): on two one-layer networks the call raises
    [AttributeError] at its first pair, the network object having no
    attribute [param]; no target parameter is blended. *)
Theorem soft_update_raises_attribute_error :
  soft_update (one_layer [1%Q] [0%Q]) (one_layer [3%Q] [0%Q]) TAU
  = Raise AttributeError
  ∧ blend [1%Q] [3%Q] TAU = Ok [(1 * (1 - TAU) + 3 * TAU)%Q].
Proof. split; reflexivity. Qed.

(** Where the network does own a parameter named [param], every pair is
    blended from that one tensor: the bias below becomes
    [param * (1 - tau) + source_bias * tau], with [param] already
    rewritten by the first iteration, not a blend of the old bias 5
    (the numbers are those of exact arithmetic). *)
Example soft_update_reads_one_attribute :
  ∃ p b,
    soft_update (flat_net [1%Q] [5%Q]) (flat_net [3%Q] [7%Q]) TAU
    = Ok (flat_net [p] [b])
    ∧ (p == 1 * (1 - TAU) + 3 * TAU)%Q
    ∧ (b == p * (1 - TAU) + 7 * TAU)%Q
    ∧ ¬ (b == 5 * (1 - TAU) + 7 * TAU)%Q.
Proof.
  eexists _, _. split; [reflexivity|]. vm_compute. repeat split; discriminate.
Qed.

(** C2 ([DDPG.save_model], [DDPG.load_weights]): saving an agent whose
    critic weight is 2 and loading from the same path leaves the critic
    with the actor's weight 1: the critic is read from [actor.pth], and
    the file [critic.pth] that [save_model] wrote is not read. *)
Theorem save_then_load_replaces_critic_by_actor :
  let a := toy_agent (one_layer [1%Q] [0%Q]) (one_layer [2%Q] [0%Q])
             true 10000 in
  let fs := save_model a (Some "out") ∅ in
  fs !! "out/actor.pth" = Some (StateDictFile (state_dict (actor a)))
  ∧ fs !! "out/critic.pth" = Some (StateDictFile (state_dict (critic a)))
  ∧ ∃ a', load_weights a (Some "out") fs = Ok a'
          ∧ actor a' = actor a
          ∧ critic a' = one_layer [1%Q] [0%Q]
          ∧ critic a' ≠ critic a.
Proof.
  simpl. split; [reflexivity|]. split; [reflexivity|].
  eexists. split; [vm_compute; reflexivity|]. 
  repeat split. discriminate.
Qed.

(** C7 ([DDPG.load_weights]): with the actor's file in place and the
    file [critic.pth] absent, or holding bytes that cannot be loaded,
    the call returns normally and the critic has the actor's
    parameters: no error reaches the caller.  Without a path the call
    returns the agent as it is, and with the actor's file absent it
    raises. *)
Theorem load_weights_silent_on_missing_critic_file :
  let a := toy_agent (one_layer [1%Q] [0%Q]) (one_layer [2%Q] [0%Q])
             true 10000 in
  let fs : FS :=
    {["out/actor.pth" := StateDictFile (state_dict (actor a))]} in
  fs !! "out/critic.pth" = None
  ∧ (∃ a', load_weights a (Some "out") fs = Ok a'
           ∧ critic a' = one_layer [1%Q] [0%Q])
  ∧ (∃ a', load_weights a (Some "out")
             (<["out/critic.pth" := NotAPickle EOFError]> fs) = Ok a'
           ∧ critic a' = one_layer [1%Q] [0%Q])
  ∧ load_weights a None fs = Ok a
  ∧ load_weights a (Some "out") ∅ = Raise FileNotFoundError.
Proof.
  simpl. split; [reflexivity|].
  split; [eexists; split; [vm_compute; reflexivity|reflexivity]|].
  split; [eexists; split; [vm_compute; reflexivity|reflexivity]|].
  split; reflexivity.
Qed.

(** ** More on hard_update and soft_update *)

(** X1 ([hard_update]): when the members of every pair that [zip]
    forms have one shape, the call returns and the copy follows [zip]:
    the target's first parameters take the source's values, as many as
    the source has, and the target's further parameters, its parameter
    count and its names stay as they were.  A source without
    parameters leaves the target as it is, and a first source
    parameter that does not broadcast to the shape of the first target
    parameter makes the call raise [RuntimeError]. *)
Theorem hard_update_follows_zip :
  ∀ target source,
    (Forall (fun pr => shape (fst pr) = shape (snd pr))
       (zip (parameters target) (parameters source)) →
     ∃ target',
       hard_update target source = Ok target'
       ∧ parameters target'
         = take (length (parameters target)) (parameters source)
           ++ drop (length (parameters source)) (parameters target)
       ∧ length (parameters target') = length (parameters target)
       ∧ layout target' = layout target)
    ∧ (parameters source = [] → hard_update target source = Ok target)
    ∧ (∀ tp ts p ss,
         parameters target = tp :: ts →
         parameters source = p :: ss →
         broadcast_to (shape tp) p = None →
         hard_update target source = Raise RuntimeError).
Proof.
  intros target source. split; [|split].
  - intros Hsh.
    destruct (hard_update_same_shapes _ _ Hsh) as (t' & Hrun & Hp & Hl).
    exists t'. split; [exact Hrun|]. split; [exact Hp|].
    split; [by apply layout_length | exact Hl].
  - intros Hs. unfold hard_update, zip_parameters. rewrite Hs.
    by destruct (parameters target).
  - intros tp ts p ss Ht Hs Hb. unfold hard_update, zip_parameters.
    rewrite Ht, Hs. simpl. unfold copy_. by rewrite Hb.
Qed.

(** X3 ([soft_update]): with no pair to iterate on (the target or the
    source has no parameter) the call returns the target as it is; with
    at least one pair and no attribute [param] on the target it raises
    [AttributeError]. *)
Theorem soft_update_raises_unless_nothing_to_pair :
  ∀ target source tau,
    (parameters target = [] ∨ parameters source = [] →
     soft_update target source tau = Ok target)
    ∧ (getattr target "param" = Raise AttributeError →
       parameters target ≠ [] → parameters source ≠ [] →
       soft_update target source tau = Raise AttributeError).
Proof.
  intros target source tau. split.
  - unfold soft_update, zip_parameters. intros [-> | ->]; simpl; [done|].
    by destruct (parameters target).
  - apply soft_update_no_param_attribute.
Qed.

(** X4 ([soft_update]): a call that returns has kept the target's names
    and its number of parameters. *)
Theorem soft_update_keeps_layout :
  ∀ target source tau target',
    soft_update target source tau = Ok target' →
    layout target' = layout target
    ∧ length (parameters target') = length (parameters target).
Proof.
  intros target source tau target' Hrun.
  pose proof (soft_update_layout _ _ _ _ Hrun) as Hl.
  split; [exact Hl | by apply layout_length].
Qed.

Lemma mem_append_last m o a r t :
  last (mem_entries (mem_append m o a r t)) = Some (mkEntry o a r t).
Proof.
  unfold mem_append. simpl.
  destruct (Z.of_nat (length (mem_entries m)) <? mem_limit m);
    apply last_snoc.
Qed.

Section Acting.

Context `{Collaborators}.

(** C4 ([DDPG.select_action]): every call raises [TypeError], from
    [to_tensor], before the actor is applied: the noise process is not
    sampled, the random state is not advanced and [a_t] is not
    assigned. *)
Theorem select_action_raises_type_error :
  ∀ (self : DDPG) (s : list Q) g,
    select_action self s g = (Raise TypeError, self, g)
    ∧ random_process (snd (fst (select_action self s g)))
      = random_process self
    ∧ a_t (snd (fst (select_action self s g))) = a_t self.
Proof. intros self s g. repeat split. Qed.

(** C3 ([DDPG.update_policy]): no call returns; a call that has got
    its batch from the replay memory raises [TypeError], from the
    first [to_tensor] of line 143, and so do the computation of the
    target critic's values and that of the target itself: no bootstrap
    target is ever made. *)
Theorem update_policy_raises_type_error :
  (∀ (self : DDPG) g, ∃ e, update_policy self g = Raise e)
  ∧ (∀ (self : DDPG) g positions g' b,
       draw_positions (length (mem_entries (memory self)))
                      (batch_size self) g = (positions, g') →
       sample_and_split (memory self) positions = Ok b →
       update_policy self g = Raise TypeError
       ∧ next_q_values self b = Raise TypeError
       ∧ ∀ next_q, target_q_batch self b next_q = Raise TypeError).
Proof.
  split.
  - intros self g. unfold update_policy.
    destruct (draw_positions _ _ g) as [positions g1].
    destruct (sample_and_split (memory self) positions) as [b|e]; simpl;
      by eexists.
  - intros self g positions g' b Hdraw Hb. unfold update_policy.
    rewrite Hdraw, Hb. repeat split.
Qed.

(** C6 ([DDPG.observe]): in training mode the call appends
    (s_t, a_t, r_t, done) to the replay memory, as its newest record,
    sets [s_t] to [s_t1] and leaves the rest of the agent alone; out
    of training mode the agent is unchanged. *)
Theorem observe_records_only_when_training :
  ∀ (self : DDPG) r_t s_t1 done,
    (is_training self = true →
     let self' := observe self r_t s_t1 done in
     memory self'
     = mem_append (memory self) (s_t self) (a_t self) r_t done
     ∧ last (mem_entries (memory self'))
       = Some (mkEntry (s_t self) (a_t self) r_t done)
     ∧ s_t self' = Some s_t1
     ∧ a_t self' = a_t self
     ∧ actor self' = actor self ∧ actor_target self' = actor_target self
     ∧ critic self' = critic self
     ∧ critic_target self' = critic_target self
     ∧ random_process self' = random_process self
     ∧ is_training self' = true)
    ∧ (is_training self = false → observe self r_t s_t1 done = self).
Proof.
  intros self r_t s_t1 done. unfold observe.
  split; intros Htr; rewrite Htr; simpl; [|done].
  repeat split; [apply mem_append_last | exact Htr].
Qed.

(** C10 ([DDPG.select_action], [DDPG.random_action]): a call of
    [select_action] raises [TypeError], returns no value and leaves
    [a_t] as it was; after [random_action], [a_t] is the value
    returned, and an [observe] that follows in training mode stores
    that value as the action of the record it appends, next to the
    agent's [s_t]. *)
Theorem a_t_is_set_by_random_action_only :
  (∀ (self : DDPG) s g,
     fst (fst (select_action self s g)) = Raise TypeError
     ∧ a_t (snd (fst (select_action self s g))) = a_t self)
  ∧ (∀ (self : DDPG) g,
       a_t (snd (fst (random_action self g)))
       = Some (fst (fst (random_action self g))))
  ∧ (∀ (self : DDPG) g r_t s_t1 done,
       is_training self = true →
       let '(action, self', _) := random_action self g in
       last (mem_entries (memory (observe self' r_t s_t1 done)))
       = Some (mkEntry (s_t self) (Some action) r_t done)).
Proof.
  repeat split.
  - intros self g. unfold random_action.
    by destruct (np_uniform (-1) 1 (nb_actions self) g).
  - intros self g r_t s_t1 done Htr. unfold random_action.
    destruct (np_uniform (-1) 1 (nb_actions self) g).
    unfold observe. simpl. rewrite Htr. simpl. apply mem_append_last.
Qed.

(** X9 ([DDPG.load_weights]): a call with a path that returns has
    replaced [actor] and [critic], both from the one dictionary held by
    [actor.pth]; it does not touch the target networks, which keep
    their former parameters, nor any other attribute. *)
Theorem load_weights_leaves_targets :
  ∀ (self a' : DDPG) o (fs : FS),
    load_weights self (Some o) fs = Ok a' →
    (∃ sd, fs !! (o +:+ "/actor.pth") = Some (StateDictFile sd)
           ∧ load_state_dict (actor self) sd = Ok (actor a')
           ∧ load_state_dict (critic self) sd = Ok (critic a'))
    ∧ actor_target a' = actor_target self
    ∧ critic_target a' = critic_target self
    ∧ actor_optim a' = actor_optim self
    ∧ critic_optim a' = critic_optim self
    ∧ memory a' = memory self
    ∧ random_process a' = random_process self
    ∧ is_training a' = is_training self
    ∧ s_t a' = s_t self ∧ a_t a' = a_t self.
Proof.
  intros self a' o fs Hload.
  split; [by apply load_weights_ok|].
  revert Hload. unfold load_weights. simpl.
  destruct (load_from_file (actor self) _ fs) as [act|]; simpl; [|done].
  destruct (load_from_file (critic self) _ fs) as [cri|]; simpl; [|done].
  intros [= <-]. simpl. repeat split.
Qed.

(** X11 ([DDPG.save_model], [DDPG.load_weights]): for an agent whose
    actor has distinct parameter names, loading from the path just
    saved to gives the actor its own parameters back and loads the
    actor's dictionary into the critic: the result is that of
    [critic.load_state_dict(actor.state_dict())] alone. *)
Theorem save_then_load_keeps_actor :
  ∀ (self : DDPG) o (fs : FS),
    NoDup (fst <$> state_dict (actor self)) →
    load_weights self (Some o) (save_model self (Some o) fs)
    = cri ← load_state_dict (critic self) (state_dict (actor self)) ;
      Ok (set_critic self cri).
Proof.
  intros self o fs Hnd. unfold load_weights, load_from_file, torch_load.
  pose proof (save_model_lookup_actor self (Some o) fs) as Hfile.
  simpl in *. rewrite Hfile. simpl.
  rewrite (load_own_state_dict _ Hnd). simpl.
  destruct (load_state_dict (critic self) (state_dict (actor self)));
    simpl; [|done].
  by destruct self.
Qed.

End Acting.

(** ** The training loop *)

Section Training.

Context `{Collaborators}.

Lemma module_globals_agent : module_globals !! "agent" = None.
Proof. reflexivity. Qed.

(** C9 ([DDPG.train]): with the names the module itself binds, among
    which [agent] is not, and a positive [num_iter], the run resets
    the environment, raises [NameError] at the first use of [agent]
    and has made no environment step. *)
Theorem train_raises_name_error :
  ∀ (self : DDPG) env g fs num_iter output mel,
    0 < num_iter →
    module_globals !! "agent" = None
    ∧ train self module_globals env g fs num_iter output mel
      = ([EvEnvReset], Raise NameError).
Proof.
  intros self env g fs num_iter output mel Hpos.
  split; [apply module_globals_agent|].
  unfold train. destruct (Z.to_nat num_iter) as [|fuel] eqn:Hfuel; [lia|].
  cbn [train_loop ts_step]. destruct (Z.ltb_spec 0 num_iter); [|lia].
  unfold train_iter, train_select.
  cbn [ts_observation ts_env ts_globals ts_self].
  destruct (env_reset env) as [o env']. unfold call_agent.
  by rewrite module_globals_agent.
Qed.

(** The first iteration, by what the name [agent] is bound to. *)
Lemma train_iter_first num_iter output mel (self : DDPG) globals env g fs :
  train_iter num_iter output mel
    (mkTrainState self globals env g fs 0 0 0 0 None)
  = match globals !! "agent" with
    | None => ([EvEnvReset], Raise NameError)
    | Some GOther => ([EvEnvReset], Raise AttributeError)
    | Some _ => ([EvEnvReset; EvAgentReset; EvSelectAction], Raise TypeError)
    end.
Proof.
  unfold train_iter, train_select.
  cbn [ts_observation ts_env ts_globals ts_self].
  destruct (env_reset env) as [o env']. unfold call_agent at 1.
  destruct (globals !! "agent") as [[|a|]|] eqn:Hg; try done.
  - cbn [ts_globals ts_self ts_rng]. unfold call_agent. by rewrite Hg.
  - cbn [ts_globals ts_self ts_rng]. unfold call_agent.
    by rewrite lookup_insert_eq.
Qed.

Lemma train_positive (self : DDPG) globals env g fs num_iter output mel :
  0 < num_iter →
  train self globals env g fs num_iter output mel
  = match globals !! "agent" with
    | None => ([EvEnvReset], Raise NameError)
    | Some GOther => ([EvEnvReset], Raise AttributeError)
    | Some _ => ([EvEnvReset; EvAgentReset; EvSelectAction], Raise TypeError)
    end.
Proof.
  intros Hpos. unfold train.
  destruct (Z.to_nat num_iter) as [|fuel] eqn:Hfuel; [lia|].
  cbn [train_loop ts_step]. destruct (Z.ltb_spec 0 num_iter); [|lia].
  rewrite train_iter_first.
  by destruct (globals !! "agent") as [[|a|]|].
Qed.

Lemma train_not_positive (self : DDPG) globals env g fs num_iter output mel :
  num_iter ≤ 0 →
  train self globals env g fs num_iter output mel
  = ([], Ok (mkTrainState self globals env g fs 0 0 0 0 None)).
Proof.
  intros Hn. unfold train.
  destruct (Z.to_nat num_iter) as [|fuel] eqn:Hfuel; [done|lia].
Qed.

(** The guard of line 189, on its own: at a step that does not exceed
    [ignore_step], lines 189-193 make no call of [update_policy]. *)
Lemma train_learn_guard num_iter output step (self : DDPG) g fs :
  step ≤ ignore_step self →
  ∀ s, EvUpdatePolicy s ∉ fst (train_learn num_iter output step self g fs).
Proof.
  intros Hle s. unfold train_learn.
  destruct (Z.ltb_spec (ignore_step self) step) as [Hlt|_]; [lia|].
  destruct (Z.quot num_iter 3 =? 0); simpl; [apply not_elem_of_nil|].
  destruct (step `mod` Z.quot num_iter 3 =? 0); simpl;
    [|apply not_elem_of_nil].
  intros Hin. apply list_elem_of_singleton in Hin. discriminate Hin.
Qed.




End Training.

(** ** The properties at concrete inputs *)

#[local] Existing Instance toy.


Lemma update_policy_raises_type_error_witness :
  let self := set_memory warm_agent toy_memory in
  draw_positions (length (mem_entries (memory self))) (batch_size self) 0%nat
  = ([0%nat], 1%nat)
  ∧ (∃ b, sample_and_split (memory self) [0%nat] = Ok b)
  ∧ update_policy self 0%nat = Raise TypeError.
Proof.
  intros self.
  destruct (sample_and_split (memory self) [0%nat]) as [b|e] eqn:Hb;
    [|vm_compute in Hb; discriminate].
  split; [reflexivity|]. split; [by exists b|].
  exact (proj1 (proj2 (update_policy_raises_type_error (H:=toy))
                  self 0%nat [0%nat] 1%nat b eq_refl Hb)).
Defined.

Lemma observe_records_only_when_training_witness :
  is_training warm_agent = true
  ∧ mem_entries (memory (observe warm_agent 1%Q [0%Q; 0%Q; 1%Q] false))
    = [mkEntry None None 1%Q false]
  ∧ s_t (observe warm_agent 1%Q [0%Q; 0%Q; 1%Q] false)
    = Some [0%Q; 0%Q; 1%Q]
  ∧ is_training idle_agent = false
  ∧ observe idle_agent 1%Q [0%Q; 0%Q; 1%Q] false = idle_agent.
Proof.
  pose proof (observe_records_only_when_training (H:=toy) warm_agent 1%Q
                [0%Q; 0%Q; 1%Q] false) as [Htrain _].
  pose proof (observe_records_only_when_training (H:=toy) idle_agent 1%Q
                [0%Q; 0%Q; 1%Q] false) as [_ Hidle].
  split; [reflexivity|].
  destruct (Htrain eq_refl) as (Hmem & _ & Hs & _).
  split; [rewrite Hmem; reflexivity|].
  split; [exact Hs|].
  split; [reflexivity|].
  apply Hidle. reflexivity.
Defined.

Lemma a_t_is_set_by_random_action_only_witness :
  is_training warm_agent = true
  ∧ let '(action, self', _) := random_action warm_agent 0%nat in
    last (mem_entries (memory (observe self' 1%Q [0%Q; 0%Q; 1%Q] false)))
    = Some (mkEntry (s_t warm_agent) (Some action) 1%Q false).
Proof.
  split; [reflexivity|].
  apply (proj2 (proj2 (a_t_is_set_by_random_action_only (H:=toy)))
           warm_agent 0%nat 1%Q [0%Q; 0%Q; 1%Q] false).
  reflexivity.
Defined.


Lemma train_raises_name_error_witness :
  0 < 5
  ∧ train warm_agent module_globals 0%nat 0%nat ∅ 5 (Some "out") None
    = ([EvEnvReset], Raise NameError).
Proof.
  split; [lia|].
  apply (train_raises_name_error (H:=toy) warm_agent 0%nat 0%nat ∅ 5
           (Some "out") None).
  lia.
Defined.

(** With a critic wider than the actor, loading after saving raises:
    the parameter dictionary read for the critic is the actor's. *)
Example load_weights_rejects_actor_file_for_other_shape :
  let a := toy_agent (one_layer [1%Q] [0%Q]) (one_layer [2%Q; 2%Q] [0%Q])
             true 10000 in
  load_weights a (Some "out") (save_model a (Some "out") ∅)
  = Raise RuntimeError.
Proof. vm_compute. reflexivity. Qed.


Lemma hard_update_follows_zip_witness :
  Forall (fun pr => shape (fst pr) = shape (snd pr))
    (zip (parameters (one_layer [1%Q] [0%Q]))
         (parameters (flat_net [3%Q] [7%Q])))
  ∧ (∃ target',
       hard_update (one_layer [1%Q] [0%Q]) (flat_net [3%Q] [7%Q])
       = Ok target'
       ∧ parameters target' = [vector [3%Q]; vector [7%Q]]
       ∧ layout target' = layout (one_layer [1%Q] [0%Q]))
  ∧ parameters (mkModule [] []) = []
  ∧ hard_update (one_layer [1%Q] [0%Q]) (mkModule [] [])
    = Ok (one_layer [1%Q] [0%Q])
  ∧ broadcast_to (shape (vector [1%Q; 2%Q])) (vector [3%Q; 4%Q; 5%Q]) = None
  ∧ hard_update (single (vector [1%Q; 2%Q]))
      (single (vector [3%Q; 4%Q; 5%Q]))
    = Raise RuntimeError.
Proof.
  assert (Forall (fun pr => shape (fst pr) = shape (snd pr))
            (zip (parameters (one_layer [1%Q] [0%Q]))
                 (parameters (flat_net [3%Q] [7%Q])))) as Hsh
    by (repeat (apply Forall_cons_2; [reflexivity|]); apply Forall_nil_2).
  split; [exact Hsh|]. split.
  { destruct (proj1 (hard_update_follows_zip (one_layer [1%Q] [0%Q])
                       (flat_net [3%Q] [7%Q])) Hsh)
      as (t' & Hrun & Hp & _ & Hl).
    exists t'. split; [exact Hrun|]. split; [exact Hp | exact Hl]. }
  split; [reflexivity|]. split.
  { apply (proj1 (proj2 (hard_update_follows_zip (one_layer [1%Q] [0%Q])
                           (mkModule [] [])))).
    reflexivity. }
  split; [reflexivity|].
  apply (proj2 (proj2 (hard_update_follows_zip
                         (single (vector [1%Q; 2%Q]))
                         (single (vector [3%Q; 4%Q; 5%Q]))))
           (vector [1%Q; 2%Q]) [] (vector [3%Q; 4%Q; 5%Q]) []);
    reflexivity.
Defined.

Lemma soft_update_raises_unless_nothing_to_pair_witness :
  (parameters (one_layer [1%Q] [0%Q]) = [] ∨ parameters (mkModule [] []) = [])
  ∧ soft_update (one_layer [1%Q] [0%Q]) (mkModule [] []) TAU
    = Ok (one_layer [1%Q] [0%Q])
  ∧ getattr (one_layer [1%Q] [0%Q]) "param" = Raise AttributeError
  ∧ parameters (one_layer [1%Q] [0%Q]) ≠ []
  ∧ parameters (one_layer [3%Q] [0%Q]) ≠ []
  ∧ soft_update (one_layer [1%Q] [0%Q]) (one_layer [3%Q] [0%Q]) TAU
    = Raise AttributeError.
Proof.
  assert (parameters (one_layer [1%Q] [0%Q]) ≠ []) as H1 by discriminate.
  assert (parameters (one_layer [3%Q] [0%Q]) ≠ []) as H3 by discriminate.
  split; [right; reflexivity|].
  split.
  { apply (proj1 (soft_update_raises_unless_nothing_to_pair
                    (one_layer [1%Q] [0%Q]) (mkModule [] []) TAU)).
    right. reflexivity. }
  split; [reflexivity|]. split; [exact H1|]. split; [exact H3|].
  apply (proj2 (soft_update_raises_unless_nothing_to_pair
                  (one_layer [1%Q] [0%Q]) (one_layer [3%Q] [0%Q]) TAU));
    [reflexivity | exact H1 | exact H3].
Defined.

Lemma soft_update_keeps_layout_witness :
  ∃ target',
    soft_update (flat_net [1%Q] [5%Q]) (flat_net [3%Q] [7%Q]) TAU = Ok target'
    ∧ layout target' = layout (flat_net [1%Q] [5%Q])
    ∧ length (parameters target') = 2%nat.
Proof.
  destruct (soft_update (flat_net [1%Q] [5%Q]) (flat_net [3%Q] [7%Q]) TAU)
    as [target'|e] eqn:Hrun; [|vm_compute in Hrun; discriminate].
  exists target'. split; [reflexivity|].
  exact (soft_update_keeps_layout _ _ _ _ Hrun).
Defined.

Lemma load_weights_leaves_targets_witness :
  ∃ a',
    load_weights warm_agent (Some "out")
      (save_model warm_agent (Some "out") ∅) = Ok a'
    ∧ actor_target a' = actor_target warm_agent
    ∧ critic_target a' = critic_target warm_agent
    ∧ memory a' = memory warm_agent.
Proof.
  destruct (load_weights warm_agent (Some "out")
              (save_model warm_agent (Some "out") ∅)) as [a'|e] eqn:Hrun;
    [|vm_compute in Hrun; discriminate].
  exists a'. split; [reflexivity|].
  destruct (load_weights_leaves_targets (H:=toy) _ _ _ _ Hrun)
    as (_ & Hat & Hct & _ & _ & Hm & _).
  split; [exact Hat|]. split; [exact Hct|]. exact Hm.
Defined.

Lemma save_then_load_keeps_actor_witness :
  NoDup (fst <$> state_dict (actor warm_agent))
  ∧ load_weights warm_agent (Some "out")
      (save_model warm_agent (Some "out") ∅)
    = cri ← load_state_dict (critic warm_agent)
              (state_dict (actor warm_agent)) ;
      Ok (set_critic warm_agent cri).
Proof.
  assert (NoDup (fst <$> state_dict (actor warm_agent))) as Hnd.
  { apply (bool_decide_unpack _). vm_compute. reflexivity. }
  split; [exact Hnd|].
  apply (save_then_load_keeps_actor (H:=toy) warm_agent "out" ∅ Hnd).
Defined.

